(** * Car MPG dashboard (app.py): loading, filtering and aggregation

    A shallow embedding of the data pipeline of [app.py]. The data frame is
    an ordered list of rows and a column is one field taken over the rows;
    the boolean mask of lines 46-50 is a list filter, [groupby] is a sorted
    list of keys with the reduction of each group, the sidebar is a
    session of widget values that survives a rerun of the script, and the
    export is the text the CSV writer produces, character by character.
    Floating-point columns are IEEE binary64 values ([PrimFloat.float]),
    missing values being NaN, as in pandas. *)

From Stdlib Require Import ZArith NArith Ascii String PrimFloat Uint63.
From Stdlib Require SpecFloat FloatOps FloatAxioms.
From Stdlib Require DecimalString DecimalZ DecimalPos.
From stdpp Require Import base decidable option list strings sorting.

Local Open Scope Z_scope.

(** Decimal constants such as 22.3 stand for the nearest binary64 value, as
    they do in the script's data. *)
#[local] Set Warnings "-inexact-float".

(** * Part I: the program *)

(** ** The data frame *)

(** One row of the data frame returned by [load_data], one field per
    column. After [dropna] no text or integer is missing, so these fields
    are plain values. *)
Record Row := mkRow {
  name : string;
  origin : string;
  cylinders : Z;
  model_year : Z;
  weight : float;
  horsepower : float;
  mpg : float
}.

Definition DataFrame := list Row.

(** One row as [pd.read_csv] returns it: a missing text or integer cell is
    [None], a missing floating-point cell is NaN. *)
Record RawRow := mkRawRow {
  raw_name : option string;
  raw_origin : option string;
  raw_cylinders : option Z;
  raw_model_year : option Z;
  raw_weight : float;
  raw_horsepower : float;
  raw_mpg : float
}.

(** ** Loading (lines 8-13) *)

(** [notna] on a floating-point cell. *)
Definition float_notna (x : float) : option float :=
  if PrimFloat.is_nan x then None else Some x.

(** One row through [dropna]: kept, with all its values, when none of them
    is missing. *)
Definition complete (raw : RawRow) : option Row :=
  n ← raw_name raw;
  o ← raw_origin raw;
  c ← raw_cylinders raw;
  y ← raw_model_year raw;
  w ← float_notna (raw_weight raw);
  h ← float_notna (raw_horsepower raw);
  m ← float_notna (raw_mpg raw);
  Some (mkRow n o c y w h m).

(** [DataFrame.dropna()]: the rows without a missing value, in order. *)
Definition dropna (csv : list RawRow) : DataFrame := omap complete csv.

(** [str.upper] and [str.lower] on one character. The model covers ASCII
    text: a byte outside the ASCII letters is left as it is. *)
Definition upper (c : ascii) : ascii :=
  let n := N_of_ascii c in
  if ((97 <=? n) && (n <=? 122))%N then ascii_of_N (n - 32) else c.

Definition lower (c : ascii) : ascii :=
  let n := N_of_ascii c in
  if ((65 <=? n) && (n <=? 90))%N then ascii_of_N (n + 32) else c.

Fixpoint lower_all (s : string) : string :=
  match s with
  | EmptyString => EmptyString
  | String c s' => String (lower c) (lower_all s')
  end.

(** [str.capitalize()]: first character upper-cased, the rest lower-cased. *)
Definition capitalize (s : string) : string :=
  match s with
  | EmptyString => EmptyString
  | String c s' => String (upper c) (lower_all s')
  end.

(** The text on which the model of [str.capitalize] stands: ASCII
    characters, where the method changes the case of the 26 letters and
    nothing else. *)
Definition ascii_text (s : string) : bool :=
  forallb (λ c, (N_of_ascii c <? 128)%N) (list_ascii_of_string s).

(** [df["origin"] = df["origin"].str.capitalize()] (line 11). *)
Definition capitalize_origin (df : DataFrame) : DataFrame :=
  (λ r, mkRow (name r) (capitalize (origin r)) (cylinders r) (model_year r)
              (weight r) (horsepower r) (mpg r)) <$> df.

(** [df["model_year"] = df["model_year"].apply(lambda y: 1900 + y)]
    (line 12). *)
Definition full_model_year (df : DataFrame) : DataFrame :=
  (λ r, mkRow (name r) (origin r) (cylinders r) (1900 + model_year r)
              (weight r) (horsepower r) (mpg r)) <$> df.

(** [load_data], given the rows [pd.read_csv("mpg.csv")] returned. *)
Definition load_data (csv : list RawRow) : DataFrame :=
  let df := dropna csv in
  let df := capitalize_origin df in
  let df := full_model_year df in
  df.

(** ** The sidebar (lines 20-43) *)

(** The values of the three filter widgets: the two multiselects return the
    list of chosen options, the slider a pair of bounds. *)
Record FilterState := mkFilterState {
  selected_origins : list string;
  selected_cylinders : list Z;
  year_range : Z * Z
}.

(** [Series.unique()]: the distinct values in order of first appearance. *)
Fixpoint unique `{EqDecision A} (col : list A) : list A :=
  match col with
  | [] => []
  | x :: col' => x :: filter (λ y, y ≠ x) (unique col')
  end.

(** [int(Series.min())] and [int(Series.max())]: on an empty column the
    reduction is NaN and [int] raises, which is [None] here. *)
Definition series_min (col : list Z) : option Z :=
  match col with
  | [] => None
  | x :: col' => Some (foldl Z.min x col')
  end.

Definition series_max (col : list Z) : option Z :=
  match col with
  | [] => None
  | x :: col' => Some (foldl Z.max x col')
  end.

(** The [default=] and [value=] arguments of the three widgets: every
    origin, every cylinder count, the whole span of model years. *)
Definition default_state (df : DataFrame) : option FilterState :=
  lo ← series_min (model_year <$> df);
  hi ← series_max (model_year <$> df);
  Some (mkFilterState
          (merge_sort String.le (unique (origin <$> df)))
          (merge_sort Z.le (unique (cylinders <$> df)))
          (lo, hi)).

(** The widget state Streamlit keeps for the session between two runs of
    the script: the value the user last gave each widget, if any. *)
Record Session := mkSession {
  w_origins : option (list string);
  w_cylinders : option (list Z);
  w_year_range : option (Z * Z)
}.

(** What the user can do in the sidebar. *)
Inductive Event :=
  | SelectOrigins (l : list string)
  | SelectCylinders (l : list Z)
  | SlideYears (range : Z * Z)
  | ClickReset.

(** The front end records a new widget value in the session before the
    script runs again; a click on the button changes no widget value. *)
Definition record_event (ss : Session) (e : Event) : Session :=
  match e with
  | SelectOrigins l => mkSession (Some l) (w_cylinders ss) (w_year_range ss)
  | SelectCylinders l => mkSession (w_origins ss) (Some l) (w_year_range ss)
  | SlideYears range => mkSession (w_origins ss) (w_cylinders ss) (Some range)
  | ClickReset => ss
  end.

(** Lines 23-40: each widget returns the session's value for it, or its
    default when the user has not touched it. *)
Definition read_widgets (df : DataFrame) (ss : Session) : option FilterState :=
  d ← default_state df;
  Some (mkFilterState
          (default (selected_origins d) (w_origins ss))
          (default (selected_cylinders d) (w_cylinders ss))
          (default (year_range d) (w_year_range ss))).

(** [st.sidebar.slider] checks its arguments before it draws anything: the
    lower bound has to be below the upper one, and both have to be integers
    the front end can hold, from [-(2^53 - 1)] to [2^53 - 1]. *)
Definition slider_accepts (bounds : Z * Z) : bool :=
  bool_decide (bounds.1 < bounds.2)
  && bool_decide (- (2 ^ 53 - 1) ≤ bounds.1)
  && bool_decide (bounds.2 ≤ 2 ^ 53 - 1).

(** How one pass of the script over lines 23-43 ends. *)
Inductive Pass :=
  | Shown (st : FilterState)   (* the pass goes on to line 46 with [st] *)
  | Rerun                      (* [st.rerun()] abandoned the pass *)
  | Raised.                    (* lines 35-40 raised: [int(NaN)] on an empty
                                  frame, or the slider refused its bounds *)

(** One pass over lines 23-43; [clicked] is what [st.sidebar.button]
    returns in this pass. The session holds values the widgets of this
    frame returned, that is, selections among the options and a range
    within the bounds. *)
Definition sidebar_pass (df : DataFrame) (ss : Session) (clicked : bool)
  : Pass :=
  match default_state df, read_widgets df ss with
  | Some d, Some st =>
      if slider_accepts (year_range d)
      then (if clicked then Rerun else Shown st)
      else Raised
  | _, _ => Raised
  end.

(** Streamlit runs the script after an event. [st.rerun()] makes it run
    the script again from the top, on the session as it stands and with
    the button released, so that the second pass cannot ask for a third. *)
Definition run_script (df : DataFrame) (ss : Session) (clicked : bool)
  : option FilterState :=
  match sidebar_pass df ss clicked with
  | Shown st => Some st
  | Rerun =>
      match sidebar_pass df ss false with
      | Shown st => Some st
      | _ => None
      end
  | Raised => None
  end.

(** The filter state the page shows once the script has settled after an
    event. *)
Definition after_event (df : DataFrame) (ss : Session) (e : Event)
  : option FilterState :=
  run_script df (record_event ss e)
             (match e with ClickReset => true | _ => false end).

(** ** The filter engine (lines 46-50) *)

(** [Series.isin(values)]: element-wise membership. *)
Definition isin `{EqDecision A} (values : list A) (x : A) : bool :=
  bool_decide (x ∈ values).

(** [Series.between(left, right)], inclusive on both ends (the default). *)
Definition between (left right x : Z) : bool :=
  bool_decide (left ≤ x) && bool_decide (x ≤ right).

(** The boolean mask of lines 47-49, for one row. *)
Definition mask (s : FilterState) (r : Row) : bool :=
  isin (selected_origins s) (origin r)
  && isin (selected_cylinders s) (cylinders r)
  && between (year_range s).1 (year_range s).2 (model_year r).

(** [filtered = df[mask]]: the rows whose mask is true, in frame order. *)
Definition filtered (df : DataFrame) (s : FilterState) : DataFrame :=
  filter (λ r, mask s r = true) df.

(** ** Aggregation (lines 60-63, 68 and 77) *)

(** The reductions skip missing values (the default [skipna=True]). *)
Definition notna_values (col : list float) : list float :=
  filter (λ x, PrimFloat.is_nan x = false) col.

(** The sum of a column for [Series.mean()]. The additions are made from
    left to right; the library may associate them differently, which
    changes the last bits of the sum of a column with values and nothing
    for a column without. *)
Definition series_sum (col : list float) : float :=
  foldl PrimFloat.add 0%float col.

(** The number of values of a column, as a binary64 value. *)
Definition count (col : list float) : float :=
  PrimFloat.of_uint63 (Uint63.of_Z (Z.of_nat (length col))).

(** [Series.mean()]: the sum of the values present over their number, and
    NaN when there is none. *)
Definition mean (col : list float) : float :=
  match notna_values col with
  | [] => nan
  | vals => (series_sum vals / count vals)%float
  end.

(** [Series.max()]: the largest of the values present, and NaN when there
    is none. *)
Definition series_fmax (col : list float) : float :=
  match notna_values col with
  | [] => nan
  | x :: vals => foldl (λ a b, if PrimFloat.ltb a b then b else a) x vals
  end.

(** One step of the compensated summation by which [groupby] sums a
    group: [acc] is the running sum with its compensation. A compensation
    that has become NaN (after an infinite value) is put back to zero. *)
Definition kahan_step (acc : float * float) (val : float) : float * float :=
  let y := (val - acc.2)%float in
  let t := (acc.1 + y)%float in
  let c := (t - acc.1 - y)%float in
  (t, if PrimFloat.is_nan c then 0%float else c).

(** The mean of one group of [groupby(...).mean()]: the compensated sum of
    the values present, in the order of the rows, over their number, and
    NaN when there is none. *)
Definition group_mean (col : list float) : float :=
  match notna_values col with
  | [] => nan
  | vals => ((foldl kahan_step (0, 0)%float vals).1 / count vals)%float
  end.

(** [groupby(key)["mpg"].mean().reset_index()]: one line per distinct key of
    the frame, the keys sorted ascending (the default [sort=True]), each
    with the mean of the [mpg] of its rows. *)
Definition groupby_mean {K} `{EqDecision K} (le : relation K)
    `{!RelDecision le} (key : Row → K) (df : DataFrame) : list (K * float) :=
  (λ k, (k, group_mean (mpg <$> filter (λ r, key r = k) df)))
    <$> merge_sort le (unique (key <$> df)).

(** Keys [(model_year, origin)] compare as tuples: by year, then by name. *)
Definition key_le (k1 k2 : Z * string) : Prop :=
  k1.1 < k2.1 ∨ (k1.1 = k2.1 ∧ String.le k1.2 k2.2).

Global Instance key_le_dec : RelDecision key_le.
Proof. intros k1 k2. unfold key_le. apply _. Defined.

(** Line 68. *)
Definition trend (view : DataFrame) : list ((Z * string) * float) :=
  groupby_mean key_le (λ r, (model_year r, origin r)) view.

(** Line 77. *)
Definition avg_cyl (view : DataFrame) : list (Z * float) :=
  groupby_mean Z.le cylinders view.

(** The numbers the overview tab is built from: the three statistics that
    lines 60-62 hand to the number formatter, [len(filtered)], and the two
    grouped frames. *)
Record AggregateSummary := mkSummary {
  average_mpg : float;
  best_mpg : float;
  average_horsepower : float;
  total_count : nat;
  trend_by_year_and_origin : list ((Z * string) * float);
  average_mpg_by_cylinders : list (Z * float)
}.

Definition summarize (view : DataFrame) : AggregateSummary :=
  mkSummary (mean (mpg <$> view))
            (series_fmax (mpg <$> view))
            (mean (horsepower <$> view))
            (length view)
            (trend view)
            (avg_cyl view).

(** ** Row labels (lines 10, 46-50 and 118) *)

(** A frame with its index: every row with its label. *)
Definition Labelled (A : Type) := list (nat * A).

(** [pd.read_csv] labels the rows of the file 0, 1, 2, ... *)
Definition read_labels (csv : list RawRow) : Labelled RawRow :=
  imap (λ i raw, (i, raw)) csv.

(** [dropna] keeps the label of every row it keeps. *)
Definition dropna_labelled (csv : Labelled RawRow) : Labelled Row :=
  omap (λ ir, r ← complete ir.2; Some (ir.1, r)) csv.

(** Lines 10-13 on the labelled frame: the column assignments of lines 11
    and 12 leave the index alone. *)
Definition load_data_labelled (csv : list RawRow) : Labelled Row :=
  let df := dropna_labelled (read_labels csv) in
  let df := (λ ir, (ir.1, mkRow (name ir.2) (capitalize (origin ir.2))
                                (cylinders ir.2) (model_year ir.2) (weight ir.2)
                                (horsepower ir.2) (mpg ir.2))) <$> df in
  let df := (λ ir, (ir.1, mkRow (name ir.2) (origin ir.2) (cylinders ir.2)
                                (1900 + model_year ir.2) (weight ir.2)
                                (horsepower ir.2) (mpg ir.2))) <$> df in
  df.

(** Lines 46-50 on the labelled frame: indexing by a boolean mask keeps the
    label of every row it keeps. *)
Definition filtered_labelled (df : Labelled Row) (s : FilterState)
  : Labelled Row :=
  filter (λ ir, mask s ir.2 = true) df.

(** [reset_index(drop=True)] (line 118): the old labels are dropped and the
    rows are labelled 0, 1, 2, ... anew. *)
Definition reset_index {A} (df : Labelled A) : Labelled A :=
  imap (λ i ir, (i, ir.2)) df.

(** ** The export (lines 120-121) *)

(** The text of a CSV file, character by character. *)
Definition Text := list ascii.

Definition comma : ascii := ","%char.
Definition dquote : ascii := "034"%char.
Definition newline : ascii := "010"%char.

(** The writer behind [to_csv] is Python's [csv.writer] with the settings
    pandas gives it: comma as delimiter, the double quote as quote
    character, doubled inside a field, a line feed as line terminator, and
    quotes only around the fields that need them, namely those with a
    delimiter, a quote character or a character of the line terminator. *)
Definition csv_special (c : ascii) : bool :=
  Ascii.eqb c comma || Ascii.eqb c dquote || Ascii.eqb c newline.

Definition needs_quotes (field : Text) : bool := existsb csv_special field.

Fixpoint double_dquotes (field : Text) : Text :=
  match field with
  | [] => []
  | c :: field' =>
      if Ascii.eqb c dquote then dquote :: dquote :: double_dquotes field'
      else c :: double_dquotes field'
  end.

Definition csv_field (field : Text) : Text :=
  if needs_quotes field then dquote :: double_dquotes field ++ [dquote]
  else field.

(** The fields of one record, separated by commas and closed by the line
    terminator. *)
Fixpoint csv_fields (field : Text) (fields : list Text) : Text :=
  match fields with
  | [] => csv_field field ++ [newline]
  | field' :: fields' => csv_field field ++ comma :: csv_fields field' fields'
  end.

(** [writerow]: a record of one empty field is written as two quotes, so
    that it is not taken for an empty line. *)
Definition csv_record (fields : list Text) : Text :=
  match fields with
  | [] => [newline]
  | [[]] => [dquote; dquote; newline]
  | field :: fields' => csv_fields field fields'
  end.

Definition csv_text (records : list (list Text)) : Text :=
  concat (csv_record <$> records).

(** [str] of an integer: its decimal digits, after a minus sign when it is
    negative. *)
Definition int_repr (z : Z) : string :=
  DecimalString.NilZero.string_of_int (Z.to_int z).

(** The columns of the frame, in the order of the file. Modelled from the
    spec: [mpg.csv] is not part of the sources, and the specification lists
    its columns (External interfaces, Export) as
    [name,origin,cylinders,model_year,weight,horsepower,mpg]. *)
Definition columns : list string :=
  ["name"; "origin"; "cylinders"; "model_year"; "weight"; "horsepower"; "mpg"].

Section export.
  (** The decimal notation of a binary64 value ([repr]) is taken as a
      parameter, with the function that reads it back. *)
  Context (float_repr : float → string).
  Context (float_of_string : string → option float).


(** A floating-point cell: a missing value is written as the empty text
    (the default [na_rep]). *)
Definition float_cell (x : float) : string :=
  if PrimFloat.is_nan x then EmptyString else float_repr x.

Definition row_cells (r : Row) : list string :=
  [name r; origin r; int_repr (cylinders r); int_repr (model_year r);
   float_cell (weight r); float_cell (horsepower r); float_cell (mpg r)].

(** [filtered.to_csv(index=False)] (line 120): the header, then one record
    per row, without the index. *)
Definition to_csv (view : DataFrame) : Text :=
  csv_text ((λ cells : list string, list_ascii_of_string <$> cells)
              <$> (columns :: (row_cells <$> view))).

(** Modelled from the spec: the script never reads its export back, and the
    specification only says that the export is consumable as rows of the
    seven columns of the frame. The reader below is that consumer: it splits
    the text into records and fields by the rules of the writer, and reads
    each field by the type of its column. *)
Inductive CsvState :=
  | RecordStart   (* at the start of a line *)
  | FieldStart    (* after a comma *)
  | InPlain       (* inside a field without quotes *)
  | InQuoted      (* inside a field in quotes *)
  | AfterQuote.   (* after a quote inside a field in quotes *)


(** Modelled from the spec: the records and fields of a CSV text. [field],
    [record] and [records] hold what has been read so far. *)
Fixpoint parse_csv (st : CsvState) (field : Text) (record : list Text)
    (records : list (list Text)) (text : Text) : option (list (list Text)) :=
  match text with
  | [] =>
      match st with
      | RecordStart => Some records
      | InQuoted => None
      | _ => Some (records ++ [record ++ [field]])
      end
  | c :: text' =>
      match st with
      | InQuoted =>
          if Ascii.eqb c dquote
          then parse_csv AfterQuote field record records text'
          else parse_csv InQuoted (field ++ [c]) record records text'
      | AfterQuote =>
          if Ascii.eqb c dquote
          then parse_csv InQuoted (field ++ [dquote]) record records text'
          else if Ascii.eqb c comma
          then parse_csv FieldStart [] (record ++ [field]) records text'
          else if Ascii.eqb c newline
          then parse_csv RecordStart [] [] (records ++ [record ++ [field]]) text'
          else None
      | _ =>
          if Ascii.eqb c comma
          then parse_csv FieldStart [] (record ++ [field]) records text'
          else if Ascii.eqb c newline
          then match st with
               | RecordStart => parse_csv RecordStart [] [] (records ++ [[]]) text'
               | _ => parse_csv RecordStart [] []
                        (records ++ [record ++ [field]]) text'
               end
          else if Ascii.eqb c dquote
          then match st with
               | InPlain => parse_csv InPlain (field ++ [c]) record records text'
               | _ => parse_csv InQuoted [] record records text'
               end
          else parse_csv InPlain (field ++ [c]) record records text'
      end
  end.

(** Modelled from the spec: an integer column is read from its decimal
    digits. *)
Definition parse_int (s : string) : option Z :=
  Z.of_int <$> DecimalString.NilZero.int_of_string s.

(** Modelled from the spec: a floating-point column is read with the
    inverse of [repr], an empty field being a missing value. *)
Definition parse_float_cell (s : string) : option float :=
  match s with
  | EmptyString => Some nan
  | _ => float_of_string s
  end.

(** Modelled from the spec: one record read as a row of the frame. *)
Definition parse_row (cells : list string) : option Row :=
  match cells with
  | [n; o; c; y; w; h; m] =>
      c ← parse_int c;
      y ← parse_int y;
      w ← parse_float_cell w;
      h ← parse_float_cell h;
      m ← parse_float_cell m;
      Some (mkRow n o c y w h m)
  | _ => None
  end.

(** Modelled from the spec: the export read back as a frame. The first
    record has to be the header of the seven columns. *)
Definition read_export (text : Text) : option DataFrame :=
  records ← parse_csv RecordStart [] [] [] text;
  match (λ rec : list Text, string_of_list_ascii <$> rec) <$> records with
  | header :: rows =>
      if decide (header = columns) then mapM parse_row rows else None
  | [] => None
  end.

End export.

(** ** Sample data *)

Definition sample_csv : list RawRow :=
  [ mkRawRow (Some "chevrolet chevelle malibu") (Some "usa") (Some 8) (Some 70)
             3504 130 18;
    mkRawRow (Some "ford pinto") (Some "usa") (Some 4) (Some 71) 2046 nan 25;
    mkRawRow (Some "datsun pl510") (Some "japan") (Some 4) (Some 70)
             2130 88 27;
    mkRawRow (Some "volkswagen rabbit") (Some "europe") (Some 4) (Some 76)
             1937 71 29;
    mkRawRow (Some "toyota corolla") (Some "japan") (Some 4) (Some 76)
             2155 75 31;
    mkRawRow (Some "ford ltd") (Some "usa") (Some 8) (Some 76) 4215 152 14.5;
    mkRawRow None (Some "usa") (Some 6) (Some 76) 3233 100 22 ].

Definition sample_df : DataFrame := load_data sample_csv.

(** The numbers of the sample as Python writes them. *)
Definition sample_reprs : list (float * string) :=
  [ (3504, "3504.0"); (130, "130.0"); (18, "18.0"); (2130, "2130.0");
    (88, "88.0"); (27, "27.0"); (1937, "1937.0"); (71, "71.0"); (29, "29.0");
    (2155, "2155.0"); (75, "75.0"); (31, "31.0"); (4215, "4215.0");
    (152, "152.0"); (14.5, "14.5") ]%float.

Definition sample_repr (x : float) : string :=
  match List.find (λ p, PrimFloat.eqb p.1 x) sample_reprs with
  | Some p => p.2
  | None => EmptyString
  end.

Definition sample_float (s : string) : option float :=
  fst <$> List.find (λ p, String.eqb p.2 s) sample_reprs.

(** * Part II: properties *)

(** ** The filter *)

Lemma isin_spec `{EqDecision A} (values : list A) (x : A) :
  isin values x = true ↔ x ∈ values.
Proof. unfold isin. apply bool_decide_eq_true. Qed.

Lemma between_spec left right x :
  between left right x = true ↔ left ≤ x ≤ right.
Proof.
  unfold between. rewrite andb_true_iff, !bool_decide_eq_true. tauto.
Qed.

Lemma mask_spec s r :
  mask s r = true ↔
    origin r ∈ selected_origins s
    ∧ cylinders r ∈ selected_cylinders s
    ∧ (year_range s).1 ≤ model_year r ≤ (year_range s).2.
Proof.
  unfold mask. rewrite !andb_true_iff, !isin_spec, between_spec. tauto.
Qed.

Lemma elem_of_filtered (df : DataFrame) (s : FilterState) (r : Row) :
  r ∈ filtered df s ↔ r ∈ df ∧ mask s r = true.
Proof. unfold filtered. rewrite list_elem_of_filter. tauto. Qed.

(** C1: the filtered view is exactly the rows of the data frame, in order,
    whose origin is selected, whose cylinder count is selected and whose
    model year lies in the inclusive year range: a row is in the view iff it
    is such a row of the frame. *)
Theorem filtered_sound_complete (df : DataFrame) (s : FilterState) :
  filtered df s =
    filter (λ r, origin r ∈ selected_origins s
                 ∧ cylinders r ∈ selected_cylinders s
                 ∧ (year_range s).1 ≤ model_year r ≤ (year_range s).2) df
  ∧ ∀ r, r ∈ filtered df s ↔
      r ∈ df
      ∧ origin r ∈ selected_origins s
      ∧ cylinders r ∈ selected_cylinders s
      ∧ (year_range s).1 ≤ model_year r ≤ (year_range s).2.
Proof.
  split.
  - unfold filtered. apply list_filter_iff. intros r. apply mask_spec.
  - intros r. rewrite elem_of_filtered, mask_spec. tauto.
Qed.

(** A row of 1970 is shown for the year range (1970, 1970) and hidden for
    (1971, 1982). *)
Example filtered_sample_years :
  name <$> filtered sample_df (mkFilterState ["Usa"] [4; 6; 8] (1970, 1970))
    = ["chevrolet chevelle malibu"]
  ∧ name <$> filtered sample_df (mkFilterState ["Usa"] [4; 6; 8] (1971, 1982))
    = ["ford ltd"].
Proof. split; vm_compute; reflexivity. Qed.

(** C3: with no origin selected, or no cylinder count selected, the filtered
    view is empty, whatever the data frame. *)
Theorem filtered_empty_selection (df : DataFrame) (s : FilterState) :
  selected_origins s = [] ∨ selected_cylinders s = [] → filtered df s = [].
Proof.
  intros Hsel. apply elem_of_nil_inv. intros r.
  rewrite elem_of_filtered, mask_spec. intros (_ & Ho & Hc & _).
  destruct Hsel as [Hsel|Hsel]; rewrite Hsel in *; by eapply not_elem_of_nil.
Qed.

Lemma filtered_empty_selection_witness :
  filtered sample_df (mkFilterState [] [4; 6; 8] (1970, 1982)) = []
  ∧ filtered sample_df (mkFilterState ["Usa"; "Japan"] [] (1970, 1982)) = [].
Proof.
  split.
  - apply (filtered_empty_selection sample_df). left. reflexivity.
  - apply (filtered_empty_selection sample_df). right. reflexivity.
Defined.

(** C9: the filter is monotone in the filter state: widening the selected
    origins, the selected cylinder counts and the year range keeps every row
    that was shown. *)
Theorem filtered_monotone (df : DataFrame) (s1 s2 : FilterState) (r : Row) :
  selected_origins s1 ⊆ selected_origins s2 →
  selected_cylinders s1 ⊆ selected_cylinders s2 →
  (year_range s2).1 ≤ (year_range s1).1 →
  (year_range s1).2 ≤ (year_range s2).2 →
  r ∈ filtered df s1 → r ∈ filtered df s2.
Proof.
  intros Ho Hc Hlo Hhi. rewrite !elem_of_filtered, !mask_spec.
  intros (Hdf & Hor & Hcy & Hy). repeat split; auto; lia.
Qed.

Lemma filtered_monotone_witness :
  mkRow "toyota corolla" "Japan" 4 1976 2155 75 31
    ∈ filtered sample_df
        (mkFilterState ["Europe"; "Japan"] [4; 8] (1970, 1976)).
Proof.
  apply (filtered_monotone sample_df
           (mkFilterState ["Japan"] [4] (1975, 1976))).
  - apply (bool_decide_unpack _). vm_compute. exact I.
  - apply (bool_decide_unpack _). vm_compute. exact I.
  - simpl. lia.
  - simpl. lia.
  - vm_compute. apply list_elem_of_here.
Defined.

(** C10: filtering keeps the order and the content of the data frame: the
    filtered view is a subsequence of it, made of the very same rows. *)
Theorem filtered_sublist (df : DataFrame) (s : FilterState) :
  filtered df s `sublist_of` df.
Proof. apply sublist_filter. Qed.

(** ** Loading *)

Lemma float_notna_Some (x y : float) :
  float_notna x = Some y ↔ PrimFloat.is_nan x = false ∧ y = x.
Proof.
  unfold float_notna. destruct (PrimFloat.is_nan x); split.
  - discriminate.
  - intros [? _]. discriminate.
  - intros [= <-]. done.
  - intros [_ ->]. done.
Qed.

(** The rows of [load_data] are the rows [dropna] keeps, with the two
    columns rewritten. *)
Lemma load_data_fmap (csv : list RawRow) :
  load_data csv =
    (λ r, mkRow (name r) (capitalize (origin r)) (cylinders r)
                (1900 + model_year r) (weight r) (horsepower r) (mpg r))
      <$> dropna csv.
Proof.
  unfold load_data, full_model_year, capitalize_origin.
  rewrite <- list_fmap_compose. reflexivity.
Qed.

Lemma complete_Some (raw : RawRow) (r : Row) :
  complete raw = Some r ↔
    raw_name raw = Some (name r) ∧ raw_origin raw = Some (origin r)
    ∧ raw_cylinders raw = Some (cylinders r)
    ∧ raw_model_year raw = Some (model_year r)
    ∧ (PrimFloat.is_nan (raw_weight raw) = false ∧ weight r = raw_weight raw)
    ∧ (PrimFloat.is_nan (raw_horsepower raw) = false
       ∧ horsepower r = raw_horsepower raw)
    ∧ (PrimFloat.is_nan (raw_mpg raw) = false ∧ mpg r = raw_mpg raw).
Proof.
  unfold complete. rewrite <- !float_notna_Some. destruct r as [n o c y w h m].
  simpl. split.
  - intros H.
    destruct (raw_name raw), (raw_origin raw), (raw_cylinders raw),
      (raw_model_year raw), (float_notna (raw_weight raw)),
      (float_notna (raw_horsepower raw)), (float_notna (raw_mpg raw));
      simpl in H; try discriminate H.
    by injection H as -> -> -> -> -> -> ->.
  - intros (-> & -> & -> & -> & -> & -> & ->). reflexivity.
Qed.

Lemma complete_is_Some (raw : RawRow) :
  is_Some (complete raw) ↔
    is_Some (raw_name raw) ∧ is_Some (raw_origin raw)
    ∧ is_Some (raw_cylinders raw) ∧ is_Some (raw_model_year raw)
    ∧ PrimFloat.is_nan (raw_weight raw) = false
    ∧ PrimFloat.is_nan (raw_horsepower raw) = false
    ∧ PrimFloat.is_nan (raw_mpg raw) = false.
Proof.
  split.
  - intros [r Hr]. apply complete_Some in Hr
      as (Hn & Ho & Hc & Hy & [Hw _] & [Hh _] & [Hm _]).
    rewrite Hn, Ho, Hc, Hy. eauto 10.
  - intros ([n Hn] & [o Ho] & [c Hc] & [y Hy] & Hw & Hh & Hm).
    exists (mkRow n o c y (raw_weight raw) (raw_horsepower raw) (raw_mpg raw)).
    apply complete_Some. simpl. eauto 10.
Qed.

Lemma elem_of_load_data (csv : list RawRow) (r : Row) :
  r ∈ load_data csv ↔
    ∃ raw r0, raw ∈ csv ∧ complete raw = Some r0
      ∧ r = mkRow (name r0) (capitalize (origin r0)) (cylinders r0)
                  (1900 + model_year r0) (weight r0) (horsepower r0) (mpg r0).
Proof.
  rewrite load_data_fmap, list_elem_of_fmap. unfold dropna. split.
  - intros (r0 & -> & Hr0). apply list_elem_of_omap in Hr0 as (raw & ? & ?).
    by exists raw, r0.
  - intros (raw & r0 & Hraw & Hc & ->). exists r0. split; [done|].
    apply list_elem_of_omap. by exists raw.
Qed.

Lemma upper_lower_ascii (c : ascii) :
  (N_of_ascii c <? 128)%N = true →
  (N_of_ascii (upper c) <? 128)%N = true ∧ (N_of_ascii (lower c) <? 128)%N = true.
Proof.
  destruct c as [[] [] [] [] [] [] [] []]; vm_compute; intros H;
    try discriminate H; split; reflexivity.
Qed.

Lemma ascii_text_capitalize (o : string) :
  ascii_text o = true → ascii_text (capitalize o) = true.
Proof.
  unfold ascii_text. destruct o as [|c0 o]; [done|]. simpl.
  rewrite !andb_true_iff. intros [Hc0 Ho]. split.
  - by apply upper_lower_ascii.
  - induction o as [|c o IH]; [done|]. simpl in *.
    apply andb_true_iff in Ho as [Hc Ho]. apply andb_true_iff. split.
    + by apply upper_lower_ascii.
    + by apply IH.
Qed.

Lemma length_lower_all (s : string) :
  String.length (lower_all s) = String.length s.
Proof. induction s as [|c s IH]; simpl; [done|]. by rewrite IH. Qed.

Lemma get_lower_all (s : string) (i : nat) (c : ascii) :
  String.get i s = Some c → String.get i (lower_all s) = Some (lower c).
Proof.
  revert i. induction s as [|c' s IH]; intros [|i]; simpl; try done.
  - by intros [= ->].
  - apply IH.
Qed.

(** What [str.capitalize] does to a text: it keeps its length, puts the
    first character in upper case and every other one in lower case. *)
Lemma capitalize_get (o : string) :
  String.length (capitalize o) = String.length o
  ∧ ∀ i c, String.get i o = Some c →
           String.get i (capitalize o)
           = Some (match i with O => upper c | S _ => lower c end).
Proof.
  destruct o as [|c0 o]; simpl.
  - split; [done|]. by intros i c.
  - split; [by rewrite length_lower_all|].
    intros [|i] c; simpl; [by intros [= ->]|apply get_lower_all].
Qed.

(** On the 26 letters the two cases are exchanged. *)
Lemma upper_lower_letters (k : nat) (l u : ascii) :
  String.get k "abcdefghijklmnopqrstuvwxyz" = Some l →
  String.get k "ABCDEFGHIJKLMNOPQRSTUVWXYZ" = Some u →
  upper l = u ∧ upper u = u ∧ lower u = l ∧ lower l = l.
Proof.
  do 26 (destruct k as [|k];
         [simpl; intros [= <-] [= <-]; repeat split; reflexivity|]).
  simpl. discriminate.
Qed.

(** Every other ASCII character is its own upper and lower case. *)
Lemma upper_lower_other (c : ascii) :
  (N_of_ascii c <? 128)%N = true →
  existsb (Ascii.eqb c)
    (list_ascii_of_string
       "abcdefghijklmnopqrstuvwxyzABCDEFGHIJKLMNOPQRSTUVWXYZ") = false →
  upper c = c ∧ lower c = c.
Proof.
  destruct c as [[] [] [] [] [] [] [] []]; vm_compute; intros H1 H2;
    try discriminate H1; try discriminate H2; split; reflexivity.
Qed.

(** C5: for a file whose origins are ASCII text, [load_data] drops every
    row that has a missing value and keeps the others in order, each with
    its origin capitalised, still ASCII text, and its model year turned
    from [y] into [1900 + y], the other columns as read. The capitalised
    form has the
    length of the origin, its first character in upper case and the others
    in lower case, where the two cases exchange [a]..[z] with [A]..[Z] and
    leave every other ASCII character alone. A complete row with origin
    "usa" and model year 70 comes out with origin "Usa" and model year
    1970. *)
Theorem load_data_drops_and_normalizes (csv : list RawRow) :
  Forall (λ raw, from_option ascii_text true (raw_origin raw) = true) csv →
  load_data csv =
    omap (λ raw,
            match raw_name raw, raw_origin raw,
                  raw_cylinders raw, raw_model_year raw with
            | Some n, Some o, Some c, Some y =>
                if PrimFloat.is_nan (raw_weight raw)
                   || PrimFloat.is_nan (raw_horsepower raw)
                   || PrimFloat.is_nan (raw_mpg raw)
                then None
                else Some (mkRow n (capitalize o) c (1900 + y) (raw_weight raw)
                                 (raw_horsepower raw) (raw_mpg raw))
            | _, _, _, _ => None
            end) csv
  ∧ (∀ o, String.length (capitalize o) = String.length o
          ∧ ∀ i c, String.get i o = Some c →
                   String.get i (capitalize o)
                   = Some (match i with O => upper c | S _ => lower c end))
  ∧ (∀ k l u,
       String.get k "abcdefghijklmnopqrstuvwxyz" = Some l →
       String.get k "ABCDEFGHIJKLMNOPQRSTUVWXYZ" = Some u →
       upper l = u ∧ upper u = u ∧ lower u = l ∧ lower l = l)
  ∧ (∀ c, (N_of_ascii c <? 128)%N = true →
          existsb (Ascii.eqb c)
            (list_ascii_of_string
               "abcdefghijklmnopqrstuvwxyzABCDEFGHIJKLMNOPQRSTUVWXYZ") = false →
          upper c = c ∧ lower c = c)
  ∧ (∀ r, r ∈ load_data csv → ascii_text (origin r) = true)
  ∧ (∀ n c w h m,
       PrimFloat.is_nan w = false → PrimFloat.is_nan h = false →
       PrimFloat.is_nan m = false →
       load_data [mkRawRow (Some n) (Some "usa") (Some c) (Some 70) w h m]
       = [mkRow n "Usa" c 1970 w h m]).
Proof.
  intros Hascii. split_and!.
  - rewrite load_data_fmap. unfold dropna. rewrite list_fmap_omap.
    apply list_omap_ext, Forall2_same_length_lookup_2; [done|].
    intros i raw raw' Hraw Hraw'. assert (raw' = raw) as -> by congruence.
    unfold complete, float_notna.
    destruct (raw_name raw), (raw_origin raw), (raw_cylinders raw),
      (raw_model_year raw); simpl; try reflexivity.
    destruct (PrimFloat.is_nan (raw_weight raw)),
      (PrimFloat.is_nan (raw_horsepower raw)),
      (PrimFloat.is_nan (raw_mpg raw)); reflexivity.
  - apply capitalize_get.
  - apply upper_lower_letters.
  - apply upper_lower_other.
  - intros r (raw & r0 & Hraw & Hc & ->)%elem_of_load_data. simpl.
    apply ascii_text_capitalize.
    rewrite Forall_forall in Hascii. specialize (Hascii raw Hraw).
    apply complete_Some in Hc as (_ & Ho & _). by rewrite Ho in Hascii.
  - intros n c w h m Hw Hh Hm.
    unfold load_data, dropna, complete, float_notna. simpl.
    rewrite Hw, Hh, Hm. reflexivity.
Qed.

Lemma load_data_drops_and_normalizes_witness :
  (λ r, (name r, origin r, model_year r)) <$> load_data sample_csv
  = [("chevrolet chevelle malibu", "Usa", 1970); ("datsun pl510", "Japan", 1970);
     ("volkswagen rabbit", "Europe", 1976); ("toyota corolla", "Japan", 1976);
     ("ford ltd", "Usa", 1976)].
Proof.
  destruct (load_data_drops_and_normalizes sample_csv) as [-> _].
  - repeat (constructor; [reflexivity|]). constructor.
  - vm_compute. reflexivity.
Defined.

(** The sample file has seven rows, one without a name and one without a
    horsepower: five are loaded. *)
Example load_data_sample :
  (λ r, (name r, origin r, model_year r)) <$> sample_df =
    [("chevrolet chevelle malibu", "Usa", 1970); ("datsun pl510", "Japan", 1970);
     ("volkswagen rabbit", "Europe", 1976); ("toyota corolla", "Japan", 1976);
     ("ford ltd", "Usa", 1976)].
Proof. vm_compute. reflexivity. Qed.

(** ** The default filter state *)

Lemma elem_of_unique `{EqDecision A} (col : list A) (x : A) :
  x ∈ unique col ↔ x ∈ col.
Proof.
  induction col as [|y col IH]; simpl; [done|].
  rewrite !elem_of_cons, list_elem_of_filter, IH.
  destruct (decide (x = y)) as [->|Hne]; [by split; left|].
  split.
  - intros [->|[_ Hx]]; [by left|by right].
  - intros [->|Hx]; [by left|by right].
Qed.

Lemma NoDup_unique `{EqDecision A} (col : list A) : NoDup (unique col).
Proof.
  induction col as [|y col IH]; simpl; [constructor|].
  apply NoDup_cons. split.
  - rewrite list_elem_of_filter. by intros [Hy _].
  - by apply NoDup_filter.
Qed.

Lemma elem_of_merge_sort {A} (R : relation A) `{!RelDecision R}
    (l : list A) (x : A) :
  x ∈ merge_sort R l ↔ x ∈ l.
Proof. by rewrite merge_sort_Permutation. Qed.

Lemma foldl_min_le (col : list Z) (x : Z) :
  foldl Z.min x col ≤ x ∧ Forall (λ y, foldl Z.min x col ≤ y) col.
Proof.
  revert x. induction col as [|y col IH]; intros x; simpl.
  - split; [lia|constructor].
  - destruct (IH (Z.min x y)) as [H1 H2]. split; [lia|].
    constructor; [lia|exact H2].
Qed.

Lemma foldl_max_ge (col : list Z) (x : Z) :
  x ≤ foldl Z.max x col ∧ Forall (λ y, y ≤ foldl Z.max x col) col.
Proof.
  revert x. induction col as [|y col IH]; intros x; simpl.
  - split; [lia|constructor].
  - destruct (IH (Z.max x y)) as [H1 H2]. split; [lia|].
    constructor; [lia|exact H2].
Qed.

Lemma series_min_le (col : list Z) (lo x : Z) :
  series_min col = Some lo → x ∈ col → lo ≤ x.
Proof.
  destruct col as [|y col]; [done|]. intros [= <-].
  destruct (foldl_min_le col y) as [H1 H2].
  rewrite elem_of_cons. intros [->|Hx]; [done|].
  by eapply Forall_forall in H2.
Qed.

Lemma series_max_ge (col : list Z) (hi x : Z) :
  series_max col = Some hi → x ∈ col → x ≤ hi.
Proof.
  destruct col as [|y col]; [done|]. intros [= <-].
  destruct (foldl_max_ge col y) as [H1 H2].
  rewrite elem_of_cons. intros [->|Hx]; [done|].
  by eapply Forall_forall in H2.
Qed.

(** The widgets can be built exactly when the frame has a row. *)
Lemma default_state_is_Some (df : DataFrame) :
  is_Some (default_state df) ↔ df ≠ [].
Proof.
  unfold default_state. destruct df as [|r df]; simpl.
  - split; [intros [? [=]]|done].
  - split; [done|eauto].
Qed.

Lemma mask_default_state (df : DataFrame) (s : FilterState) (r : Row) :
  default_state df = Some s → r ∈ df → mask s r = true.
Proof.
  unfold default_state. intros Hs Hr.
  destruct (series_min (model_year <$> df)) as [lo|] eqn:Hlo; [|done].
  destruct (series_max (model_year <$> df)) as [hi|] eqn:Hhi; [|done].
  simplify_eq/=. apply mask_spec; simpl.
  rewrite !elem_of_merge_sort, !elem_of_unique.
  split_and!.
  - by apply list_elem_of_fmap_2.
  - by apply list_elem_of_fmap_2.
  - eapply series_min_le; [done|]. by apply list_elem_of_fmap_2.
  - eapply series_max_ge; [done|]. by apply list_elem_of_fmap_2.
Qed.

Lemma elem_of_column {A} (f : Row → A) (df : DataFrame) (x : A) :
  x ∈ f <$> df ↔ ∃ r, r ∈ df ∧ f r = x.
Proof.
  rewrite list_elem_of_fmap. split; intros (r & H1 & H2); exists r; by split.
Qed.

Lemma filter_all `{∀ x : A, Decision (P x)} (l : list A) :
  Forall P l → filter P l = l.
Proof.
  induction 1 as [|x l Hx Hl IH]; [done|].
  rewrite filter_cons_True by done. by rewrite IH.
Qed.

(** C4: on a data frame with at least one row the widgets' defaults exist
    (all origins present, all cylinder counts present, the span from the
    smallest to the largest model year), and filtering with them returns
    the data frame unchanged. *)
Theorem filtered_default_state (df : DataFrame) :
  df ≠ [] →
  ∃ s, default_state df = Some s
       ∧ (∀ o, o ∈ selected_origins s ↔ ∃ r, r ∈ df ∧ origin r = o)
       ∧ (∀ c, c ∈ selected_cylinders s ↔ ∃ r, r ∈ df ∧ cylinders r = c)
       ∧ series_min (model_year <$> df) = Some (year_range s).1
       ∧ series_max (model_year <$> df) = Some (year_range s).2
       ∧ filtered df s = df.
Proof.
  intros Hdf. apply default_state_is_Some in Hdf as [s Hs].
  exists s. split; [done|].
  split_and!.
  - intros o. unfold default_state in Hs.
    destruct (series_min _), (series_max _); simplify_eq/=.
    by rewrite elem_of_merge_sort, elem_of_unique, elem_of_column.
  - intros c. unfold default_state in Hs.
    destruct (series_min _), (series_max _); simplify_eq/=.
    by rewrite elem_of_merge_sort, elem_of_unique, elem_of_column.
  - unfold default_state in Hs.
    destruct (series_min _), (series_max _); by simplify_eq/=.
  - unfold default_state in Hs.
    destruct (series_min _), (series_max _); by simplify_eq/=.
  - unfold filtered. apply filter_all, Forall_forall.
    intros r Hr. by eapply mask_default_state.
Qed.

Lemma filtered_default_state_witness :
  ∃ s, default_state sample_df = Some s
       ∧ (∀ o, o ∈ selected_origins s ↔ ∃ r, r ∈ sample_df ∧ origin r = o)
       ∧ (∀ c, c ∈ selected_cylinders s ↔ ∃ r, r ∈ sample_df ∧ cylinders r = c)
       ∧ series_min (model_year <$> sample_df) = Some (year_range s).1
       ∧ series_max (model_year <$> sample_df) = Some (year_range s).2
       ∧ filtered sample_df s = sample_df.
Proof. apply (filtered_default_state sample_df). vm_compute. discriminate. Defined.

(** ** The Reset button *)

(** A click on the button leaves the page on the state the widgets already
    had: the rerun reads the same session. *)
Lemma after_reset_reads_session (df : DataFrame) (ss : Session) :
  after_event df ss ClickReset = run_script df ss false.
Proof.
  unfold after_event, run_script, sidebar_pass. simpl.
  destruct (default_state df) as [d|], (read_widgets df ss); try reflexivity.
  destruct (slider_accepts (year_range d)); reflexivity.
Qed.

(** C6, at a session where the user has narrowed the origins to "Usa": after
    a click on Reset the page still filters on "Usa" alone, while the
    defaults select the three origins of the frame. *)
Theorem reset_keeps_narrowed_origins :
  let ss := record_event (mkSession None None None) (SelectOrigins ["Usa"]) in
  after_event sample_df ss ClickReset
    = Some (mkFilterState ["Usa"] [4; 8] (1970, 1976))
  ∧ default_state sample_df
    = Some (mkFilterState ["Europe"; "Japan"; "Usa"] [4; 8] (1970, 1976)).
Proof. split; vm_compute; reflexivity. Qed.

(** ** Aggregation *)

(** C2 as stated fails on the empty view: the three statistics are not
    defined values there. *)
Lemma summarize_empty_not_defined :
  ¬ (PrimFloat.is_nan (average_mpg (summarize [])) = false
     ∧ PrimFloat.is_nan (best_mpg (summarize [])) = false
     ∧ PrimFloat.is_nan (average_horsepower (summarize [])) = false).
Proof. vm_compute. intros [H _]. discriminate H. Qed.

(** C2, amended: on the empty view [summarize] raises nothing and counts 0
    rows and no group, and the three statistics are the NaN the reductions
    return on an empty column. *)
Theorem summarize_empty_is_nan :
  PrimFloat.is_nan (average_mpg (summarize [])) = true
  ∧ PrimFloat.is_nan (best_mpg (summarize [])) = true
  ∧ PrimFloat.is_nan (average_horsepower (summarize [])) = true
  ∧ total_count (summarize []) = 0%nat
  ∧ trend_by_year_and_origin (summarize []) = []
  ∧ average_mpg_by_cylinders (summarize []) = [].
Proof. repeat split; vm_compute; reflexivity. Qed.

Global Instance key_le_po : PartialOrder key_le.
Proof.
  unfold key_le. split; [split|].
  - intros [y o]. right. done.
  - intros [y1 o1] [y2 o2] [y3 o3]; simpl.
    intros [?|[-> ?]] [?|[-> ?]]; [left; lia|by left|by left|].
    right. split; [done|]. by etrans.
  - intros [y1 o1] [y2 o2]; simpl.
    intros [?|[-> ?]] [?|[? ?]]; try lia.
    f_equal. by apply (anti_symm String.le).
Qed.

Global Instance key_le_total : Total key_le.
Proof.
  intros [y1 o1] [y2 o2]. unfold key_le; simpl.
  destruct (Z.lt_trichotomy y1 y2) as [?|[->|?]]; [by left; left| |by right; left].
  destruct (total String.le o1 o2); [left|right]; by right.
Qed.

Lemma StronglySorted_strict {A} (R : relation A) (l : list A) :
  StronglySorted R l → NoDup l → StronglySorted (λ x y, R x y ∧ x ≠ y) l.
Proof.
  induction 1 as [|x l Hl IH Hx]; intros Hnd; [constructor|].
  apply NoDup_cons in Hnd as [Hxl Hnd].
  constructor; [by apply IH|].
  apply Forall_forall. intros y Hy. split.
  - by eapply Forall_forall in Hx.
  - intros ->. contradiction.
Qed.

Lemma StronglySorted_weaken {A} (R1 R2 : relation A) (l : list A) :
  (∀ x y, R1 x y → R2 x y) → StronglySorted R1 l → StronglySorted R2 l.
Proof.
  intros HR. induction 1 as [|x l Hl IH Hx]; constructor; [done|].
  eapply Forall_impl; [exact Hx|]. intros y. apply HR.
Qed.

Section groupby_mean.
Context {K : Type} `{EqDecision K} (le : relation K).
Context `{!RelDecision le, !PartialOrder le, !Total le}.
Context (key : Row → K).

Lemma groupby_mean_keys (df : DataFrame) :
  (groupby_mean le key df).*1 = merge_sort le (unique (key <$> df)).
Proof.
  unfold groupby_mean. rewrite <- list_fmap_compose.
  apply list_fmap_id.
Qed.

(** The keys come out strictly ascending: sorted, and no key twice. *)
Lemma groupby_mean_sorted (df : DataFrame) :
  StronglySorted (λ k1 k2, le k1 k2 ∧ k1 ≠ k2) (groupby_mean le key df).*1.
Proof.
  rewrite groupby_mean_keys. apply StronglySorted_strict.
  - apply StronglySorted_merge_sort; apply _.
  - rewrite merge_sort_Permutation. apply NoDup_unique.
Qed.

(** The keys are the keys of the rows of the frame. *)
Lemma elem_of_groupby_mean_keys (df : DataFrame) (k : K) :
  k ∈ (groupby_mean le key df).*1 ↔ ∃ r, r ∈ df ∧ key r = k.
Proof.
  by rewrite groupby_mean_keys, elem_of_merge_sort, elem_of_unique,
    elem_of_column.
Qed.

(** Each key carries the mean over its own rows. *)
Lemma groupby_mean_value (df : DataFrame) (k : K) (m : float) :
  (k, m) ∈ groupby_mean le key df →
  m = group_mean (mpg <$> filter (λ r, key r = k) df).
Proof.
  unfold groupby_mean. rewrite list_elem_of_fmap.
  intros (k' & [= -> ->] & _). reflexivity.
Qed.
End groupby_mean.

Example summarize_groups_sample :
  trend sample_df =
    [((1970, "Japan"), 27%float); ((1970, "Usa"), 18%float);
     ((1976, "Europe"), 29%float); ((1976, "Japan"), 31%float);
     ((1976, "Usa"), 14.5%float)]
  ∧ avg_cyl sample_df = [(4, 29%float); (8, 16.25%float)].
Proof. split; vm_compute; reflexivity. Qed.

Lemma notna_values_idemp (col : list float) :
  notna_values (notna_values col) = notna_values col.
Proof. unfold notna_values. by apply list_filter_filter_l. Qed.

Lemma notna_values_all (col : list float) :
  Forall (λ x, PrimFloat.is_nan x = false) col → notna_values col = col.
Proof. apply filter_all. Qed.

(** C7: the trend has one line per (model year, origin) pair of the view,
    the pairs strictly ascending by year and then by origin, each with the
    mean mpg of the rows of that pair; the cylinder averages have one line
    per cylinder count of the view, strictly ascending, each with the mean
    mpg of the rows of that count. The mean of a group is the number the
    grouped reduction computes in binary64: missing values are skipped, a
    group without a value gives NaN, and otherwise it is the compensated
    sum of the values, in row order, over their number; on 14.5, 22.3 and
    31.9 that is 22.900000000000002. *)
Theorem summarize_groups (view : DataFrame) :
  (StronglySorted
     (λ k1 k2, k1.1 < k2.1 ∨ (k1.1 = k2.1 ∧ String.le k1.2 k2.2 ∧ k1.2 ≠ k2.2))
     (trend_by_year_and_origin (summarize view)).*1
   ∧ (∀ y o, (y, o) ∈ (trend_by_year_and_origin (summarize view)).*1 ↔
             ∃ r, r ∈ view ∧ model_year r = y ∧ origin r = o)
   ∧ (∀ y o m, ((y, o), m) ∈ trend_by_year_and_origin (summarize view) →
        m = group_mean
              (mpg <$> filter (λ r, model_year r = y ∧ origin r = o) view)))
  ∧ (StronglySorted Z.lt (average_mpg_by_cylinders (summarize view)).*1
     ∧ (∀ c, c ∈ (average_mpg_by_cylinders (summarize view)).*1 ↔
             ∃ r, r ∈ view ∧ cylinders r = c)
     ∧ (∀ c m, (c, m) ∈ average_mpg_by_cylinders (summarize view) →
          m = group_mean (mpg <$> filter (λ r, cylinders r = c) view)))
  ∧ ((∀ col, group_mean col
             = group_mean (filter (λ x, PrimFloat.is_nan x = false) col))
     ∧ (∀ col, Forall (λ x, PrimFloat.is_nan x = true) col →
               PrimFloat.is_nan (group_mean col) = true)
     ∧ (∀ x col, Forall (λ x, PrimFloat.is_nan x = false) (x :: col) →
          group_mean (x :: col)
          = ((foldl (λ acc val,
                       let y := val - acc.2 in
                       let t := acc.1 + y in
                       let c := t - acc.1 - y in
                       (t, if PrimFloat.is_nan c then 0 else c))
                    (0, 0) (x :: col)).1
             / PrimFloat.of_uint63
                 (Uint63.of_Z (Z.of_nat (length (x :: col)))))%float)
     ∧ group_mean [14.5; 22.3; 31.9]%float = 22.900000000000002%float).
Proof.
  simpl. split_and!.
  - eapply StronglySorted_weaken; [|apply (groupby_mean_sorted key_le)].
    intros [y1 o1] [y2 o2]; unfold key_le; simpl.
    intros [[?|[-> ?]] Hne]; [by left|]. right. split_and!; [done..|].
    intros ->. done.
  - intros y o. unfold trend. rewrite (elem_of_groupby_mean_keys key_le).
    split; intros (r & Hr & Hk); exists r.
    + by injection Hk as -> ->.
    + destruct Hk as [-> ->]. done.
  - intros y o m Hm. apply (groupby_mean_value key_le) in Hm as ->.
    f_equal. f_equal. apply list_filter_iff. intros r. split.
    + by intros [= -> ->].
    + by intros [-> ->].
  - eapply StronglySorted_weaken; [|apply (groupby_mean_sorted Z.le)].
    intros c1 c2 [? ?]; simpl in *. lia.
  - intros c. unfold avg_cyl. by rewrite (elem_of_groupby_mean_keys Z.le).
  - intros c m Hm. by apply (groupby_mean_value Z.le) in Hm as ->.
  - intros col. unfold group_mean.
    change (filter (λ x, PrimFloat.is_nan x = false) col)
      with (notna_values col).
    by rewrite notna_values_idemp.
  - intros col Hnan. unfold group_mean.
    assert (notna_values col = []) as ->; [|done].
    apply elem_of_nil_inv. intros x [Hna Hx]%list_elem_of_filter.
    rewrite Forall_forall in Hnan. rewrite (Hnan x Hx) in Hna. done.
  - intros x col Hna. unfold group_mean.
    rewrite (notna_values_all _ Hna). reflexivity.
  - vm_compute. reflexivity.
Qed.

(** ** The export *)














Section export_facts.
Context (float_repr : float → string).
Context (float_of_string : string → option float).




End export_facts.



(** The text of the export of the sample. *)
Example to_csv_sample :
  string_of_list_ascii
    (to_csv sample_repr
       (filtered sample_df (mkFilterState ["Japan"] [4] (1970, 1976))))
  = String.concat (String newline EmptyString)
      [ "name,origin,cylinders,model_year,weight,horsepower,mpg";
        "datsun pl510,Japan,4,1970,2130.0,88.0,27.0";
        "toyota corolla,Japan,4,1976,2155.0,75.0,31.0";
        EmptyString ].
Proof. vm_compute. reflexivity. Qed.

(** A name with a comma and a quote is written in quotes, its quote
    doubled, and read back as it was. *)
Example to_csv_quoted_name :
  let name := String.append "ford " (String dquote "ltd, v8") in
  let car := mkRow name "Usa" 8 1976 4215 152 14.5 in
  string_of_list_ascii (csv_field (list_ascii_of_string name))
  = String dquote
      (String.append "ford "
         (String dquote (String dquote (String.append "ltd, v8"
            (String dquote EmptyString)))))
  ∧ read_export sample_float (to_csv sample_repr [car]) = Some [car].
Proof. split; vm_compute; reflexivity. Qed.

(** * Part III: further properties of the script *)

(** ** Loading (lines 8-13) *)

Lemma elem_of_load_data_notna (csv : list RawRow) (r : Row) :
  r ∈ load_data csv →
  PrimFloat.is_nan (weight r) = false
  ∧ PrimFloat.is_nan (horsepower r) = false
  ∧ PrimFloat.is_nan (mpg r) = false.
Proof.
  intros (raw & r0 & _ & Hc & ->)%elem_of_load_data. simpl.
  apply complete_Some in Hc as (_ & _ & _ & _ & [? ->] & [? ->] & [? ->]).
  done.
Qed.

(** No row of the loaded frame has a missing number: its weight, horsepower
    and mpg are not NaN. *)
Theorem load_data_notna (csv : list RawRow) (r : Row) :
  r ∈ load_data csv →
  PrimFloat.is_nan (weight r) = false
  ∧ PrimFloat.is_nan (horsepower r) = false
  ∧ PrimFloat.is_nan (mpg r) = false.
Proof. apply elem_of_load_data_notna. Qed.

Lemma load_data_notna_witness :
  PrimFloat.is_nan (weight (mkRow "ford ltd" "Usa" 8 1976 4215 152 14.5)) = false
  ∧ PrimFloat.is_nan (horsepower (mkRow "ford ltd" "Usa" 8 1976 4215 152 14.5))
    = false
  ∧ PrimFloat.is_nan (mpg (mkRow "ford ltd" "Usa" 8 1976 4215 152 14.5)) = false.
Proof.
  apply (load_data_notna sample_csv). vm_compute.
  do 4 apply list_elem_of_further. apply list_elem_of_here.
Defined.

Lemma length_dropna (csv : list RawRow) :
  (length (dropna csv) ≤ length csv)%nat
  ∧ (length (dropna csv) = length csv ↔ Forall (λ raw, is_Some (complete raw)) csv).
Proof.
  unfold dropna. induction csv as [|raw csv [IH1 IH2]].
  - split; [done|]. split; [constructor|done].
  - change (omap complete (raw :: csv))
      with (match complete raw with
            | Some r => r :: omap complete csv
            | None => omap complete csv
            end).
    destruct (complete raw) as [r|] eqn:Hr; cbn [length].
    + split; [lia|]. rewrite Forall_cons, <- IH2, Hr. split.
      * intros [= ?]. eauto.
      * intros [_ ->]. done.
    + split; [lia|]. rewrite Forall_cons, Hr. split.
      * lia.
      * intros [[? [=]] _].
Qed.

(** The loaded frame has at most as many rows as the file, and as many
    exactly when no row of the file has a missing value. *)
Theorem length_load_data (csv : list RawRow) :
  (length (load_data csv) ≤ length csv)%nat
  ∧ (length (load_data csv) = length csv ↔
       ∀ raw, raw ∈ csv →
         is_Some (raw_name raw) ∧ is_Some (raw_origin raw)
         ∧ is_Some (raw_cylinders raw) ∧ is_Some (raw_model_year raw)
         ∧ PrimFloat.is_nan (raw_weight raw) = false
         ∧ PrimFloat.is_nan (raw_horsepower raw) = false
         ∧ PrimFloat.is_nan (raw_mpg raw) = false).
Proof.
  rewrite load_data_fmap, length_fmap.
  destruct (length_dropna csv) as [H1 H2]. split; [done|].
  rewrite H2, Forall_forall. by setoid_rewrite complete_is_Some.
Qed.

Lemma upper_lower (c : ascii) : upper (lower c) = upper c.
Proof. destruct c as [[] [] [] [] [] [] [] []]; reflexivity. Qed.

(** Origins that differ only in the case of their letters are given the
    same capitalised form by line 11, so they come under one option of the
    origin filter. *)
Theorem capitalize_ignores_case (o1 o2 : string) :
  lower_all o1 = lower_all o2 → capitalize o1 = capitalize o2.
Proof.
  destruct o1 as [|c1 o1], o2 as [|c2 o2]; simpl; try done.
  intros [= Hc Ho]. rewrite Ho. f_equal.
  by rewrite <- (upper_lower c1), <- (upper_lower c2), Hc.
Qed.

Lemma capitalize_ignores_case_witness : capitalize "USA" = capitalize "usa".
Proof. apply capitalize_ignores_case. reflexivity. Defined.

(** ** The sidebar (lines 20-43) *)

Lemma default_state_Some (df : DataFrame) (s : FilterState) :
  default_state df = Some s ↔
    ∃ lo hi, series_min (model_year <$> df) = Some lo
      ∧ series_max (model_year <$> df) = Some hi
      ∧ s = mkFilterState (merge_sort String.le (unique (origin <$> df)))
                          (merge_sort Z.le (unique (cylinders <$> df)))
                          (lo, hi).
Proof.
  unfold default_state.
  destruct (series_min (model_year <$> df)) as [lo|]; simpl.
  - destruct (series_max (model_year <$> df)) as [hi|]; simpl.
    + split.
      * intros [= <-]. by exists lo, hi.
      * intros (? & ? & [= <-] & [= <-] & ->). done.
    + split; [done|]. by intros (? & ? & _ & [=] & _).
  - split; [done|]. by intros (? & ? & [=] & _).
Qed.

Lemma sorted_unique_strict {A} `{EqDecision A} (R : relation A)
    `{!RelDecision R, !Transitive R, !Total R} (col : list A) :
  StronglySorted (λ x y, R x y ∧ x ≠ y) (merge_sort R (unique col)).
Proof.
  apply StronglySorted_strict.
  - by apply StronglySorted_merge_sort.
  - rewrite merge_sort_Permutation. apply NoDup_unique.
Qed.

(** The options the two multiselects offer, which are also their defaults,
    are in strictly ascending order: sorted, and no value twice. *)
Theorem default_options_ascending (df : DataFrame) (s : FilterState) :
  default_state df = Some s →
  StronglySorted (λ o1 o2, String.le o1 o2 ∧ o1 ≠ o2) (selected_origins s)
  ∧ StronglySorted Z.lt (selected_cylinders s).
Proof.
  intros (lo & hi & _ & _ & ->)%default_state_Some. simpl. split.
  - apply (sorted_unique_strict String.le).
  - eapply StronglySorted_weaken; [|apply (sorted_unique_strict Z.le)].
    intros c1 c2 [? ?]; simpl in *. lia.
Qed.

Lemma default_options_ascending_witness :
  StronglySorted (λ o1 o2, String.le o1 o2 ∧ o1 ≠ o2) ["Europe"; "Japan"; "Usa"]
  ∧ StronglySorted Z.lt [4; 8].
Proof.
  apply (default_options_ascending sample_df
           (mkFilterState ["Europe"; "Japan"; "Usa"] [4; 8] (1970, 1976))).
  vm_compute. reflexivity.
Defined.

Lemma foldl_min_elem_of (col : list Z) (x : Z) : foldl Z.min x col ∈ x :: col.
Proof.
  revert x. induction col as [|y col IH]; intros x; simpl.
  - apply list_elem_of_here.
  - specialize (IH (Z.min x y)). rewrite !elem_of_cons in *.
    destruct IH as [->|?]; [|by auto]. destruct (Z.min_spec x y) as [[_ ->]|[_ ->]]; auto.
Qed.

Lemma foldl_max_elem_of (col : list Z) (x : Z) : foldl Z.max x col ∈ x :: col.
Proof.
  revert x. induction col as [|y col IH]; intros x; simpl.
  - apply list_elem_of_here.
  - specialize (IH (Z.max x y)). rewrite !elem_of_cons in *.
    destruct IH as [->|?]; [|by auto]. destruct (Z.max_spec x y) as [[_ ->]|[_ ->]]; auto.
Qed.

(** The two ends of the slider are model years of rows of the frame, the
    lower end is not above the upper one, and every model year of the frame
    lies between them. *)
Theorem default_year_range_attained (df : DataFrame) (s : FilterState) :
  default_state df = Some s →
  (∃ r, r ∈ df ∧ model_year r = (year_range s).1)
  ∧ (∃ r, r ∈ df ∧ model_year r = (year_range s).2)
  ∧ (year_range s).1 ≤ (year_range s).2
  ∧ ∀ r, r ∈ df → (year_range s).1 ≤ model_year r ≤ (year_range s).2.
Proof.
  intros (lo & hi & Hlo & Hhi & ->)%default_state_Some. simpl.
  assert (lo ∈ model_year <$> df) as Hlo_in.
  { destruct (model_year <$> df) as [|y col]; [done|].
    injection Hlo as <-. apply foldl_min_elem_of. }
  assert (hi ∈ model_year <$> df) as Hhi_in.
  { destruct (model_year <$> df) as [|y col]; [done|].
    injection Hhi as <-. apply foldl_max_elem_of. }
  split_and!.
  - by apply elem_of_column.
  - by apply elem_of_column.
  - by eapply series_min_le.
  - intros r Hr. split.
    + eapply series_min_le; [done|]. by apply list_elem_of_fmap_2.
    + eapply series_max_ge; [done|]. by apply list_elem_of_fmap_2.
Qed.

Lemma default_year_range_attained_witness :
  let s := mkFilterState ["Europe"; "Japan"; "Usa"] [4; 8] (1970, 1976) in
  (∃ r, r ∈ sample_df ∧ model_year r = (year_range s).1)
  ∧ (∃ r, r ∈ sample_df ∧ model_year r = (year_range s).2)
  ∧ (year_range s).1 ≤ (year_range s).2
  ∧ ∀ r, r ∈ sample_df → (year_range s).1 ≤ model_year r ≤ (year_range s).2.
Proof.
  apply (default_year_range_attained sample_df). vm_compute. reflexivity.
Defined.

Lemma sidebar_pass_slider (df : DataFrame) (ss : Session) (clicked : bool)
    (d : FilterState) :
  default_state df = Some d → slider_accepts (year_range d) = false →
  sidebar_pass df ss clicked = Raised.
Proof.
  intros Hd Hno. unfold sidebar_pass. rewrite Hd, Hno.
  by destruct (read_widgets df ss).
Qed.

(** The script raises before it reaches the filter, whatever the session
    and whether or not the button was clicked, when the frame has no row
    (the slider's bounds are [int] of NaN), when all its rows have the same
    model year (the slider has no room between its bounds) and when a model
    year lies beyond [2^53 - 1] in size (the slider cannot hold it). *)
Theorem run_script_raises (df : DataFrame) (ss : Session) (clicked : bool) :
  df = []
  ∨ (df ≠ [] ∧ ∀ r1 r2, r1 ∈ df → r2 ∈ df → model_year r1 = model_year r2)
  ∨ (∃ r, r ∈ df ∧ ¬ (- (2 ^ 53 - 1) ≤ model_year r ≤ 2 ^ 53 - 1)) →
  run_script df ss clicked = None.
Proof.
  intros Hcase.
  assert (sidebar_pass df ss clicked = Raised
          ∧ sidebar_pass df ss false = Raised) as [H1 H2].
  2: { unfold run_script. rewrite H1. done. }
  destruct (default_state df) as [d|] eqn:Hd.
  2: { unfold sidebar_pass. rewrite Hd. done. }
  assert (slider_accepts (year_range d) = false) as Hno.
  2: { split; by eapply sidebar_pass_slider. }
  pose proof Hd as (lo & hi & Hlo & Hhi & ->)%default_state_Some.
  unfold slider_accepts. simpl.
  destruct Hcase as [->|[[Hne Hsame]|(r & Hr & Hout)]]; [done| |].
  - assert (lo ∈ model_year <$> df) as (r1 & Hr1 & <-)%elem_of_column.
    { destruct (model_year <$> df) as [|y col]; [done|].
      injection Hlo as <-. apply foldl_min_elem_of. }
    assert (hi ∈ model_year <$> df) as (r2 & Hr2 & <-)%elem_of_column.
    { destruct (model_year <$> df) as [|y col]; [done|].
      injection Hhi as <-. apply foldl_max_elem_of. }
    rewrite (Hsame r1 r2 Hr1 Hr2).
    rewrite (bool_decide_eq_false_2 (_ < _)); [done|lia].
  - assert (lo ≤ model_year r).
    { eapply series_min_le; [done|]. by apply list_elem_of_fmap_2. }
    assert (model_year r ≤ hi).
    { eapply series_max_ge; [done|]. by apply list_elem_of_fmap_2. }
    destruct (decide (- (2 ^ 53 - 1) ≤ lo)) as [?|Hl].
    + rewrite (bool_decide_eq_false_2 (hi ≤ _)) by lia.
      by rewrite !andb_false_r.
    + rewrite (bool_decide_eq_false_2 (_ ≤ lo)) by done.
      by rewrite andb_false_r.
Qed.

Lemma run_script_raises_witness :
  run_script (filtered sample_df (mkFilterState ["Usa"] [8] (1970, 1970)))
             (mkSession None None None) false = None.
Proof.
  apply run_script_raises. right. left. split.
  - vm_compute. discriminate.
  - intros r1 r2. vm_compute.
    by intros ->%list_elem_of_singleton ->%list_elem_of_singleton.
Defined.

(** ** The filter (lines 46-52) *)

Lemma Forall_filter_eq `{∀ x : A, Decision (P x)} (l : list A) :
  filter P l = l ↔ Forall P l.
Proof.
  split; [|apply filter_all].
  intros Heq. apply Forall_forall. intros x Hx.
  rewrite <- Heq in Hx. by apply list_elem_of_filter in Hx as [? _].
Qed.

Lemma length_filter_eq `{∀ x : A, Decision (P x)} (l : list A) :
  length (filter P l) = length l → filter P l = l.
Proof.
  induction l as [|x l IH]; [done|].
  rewrite filter_cons. destruct (decide (P x)); simpl.
  - intros [= Hlen]. by rewrite IH.
  - intros Hlen. pose proof (length_filter P l). lia.
Qed.

(** The caption of line 52 never counts more cars shown than cars loaded,
    and the two counts agree exactly when every row of the frame passes the
    three conditions. *)
Theorem length_filtered (df : DataFrame) (s : FilterState) :
  (length (filtered df s) ≤ length df)%nat
  ∧ (length (filtered df s) = length df ↔
       ∀ r, r ∈ df →
         origin r ∈ selected_origins s
         ∧ cylinders r ∈ selected_cylinders s
         ∧ (year_range s).1 ≤ model_year r ≤ (year_range s).2).
Proof.
  unfold filtered. split; [apply length_filter|].
  split.
  - intros Hlen%length_filter_eq. apply Forall_filter_eq in Hlen.
    intros r Hr. apply mask_spec. by eapply Forall_forall in Hlen.
  - intros Hall. f_equal. apply filter_all, Forall_forall.
    intros r Hr. by apply mask_spec, Hall.
Qed.

(** Filtering a filtered view again as it was filtered changes nothing, and
    two filters applied one after the other give the same view in either
    order: the rows of the frame that pass both. *)
Theorem filtered_filtered (df : DataFrame) (s1 s2 : FilterState) :
  filtered (filtered df s1) s1 = filtered df s1
  ∧ filtered (filtered df s1) s2 = filtered (filtered df s2) s1
  ∧ ∀ r, r ∈ filtered (filtered df s1) s2 ↔ r ∈ filtered df s1 ∧ r ∈ filtered df s2.
Proof.
  unfold filtered. split_and!.
  - by apply list_filter_filter_l.
  - etrans; [apply list_filter_filter|].
    etrans; [|symmetry; apply list_filter_filter].
    apply list_filter_iff. tauto.
  - intros r. rewrite !list_elem_of_filter. tauto.
Qed.

(** Only the values selected count, not the order in which the user picked
    them nor how often one occurs: two states with the same origins, the
    same cylinder counts and the same year range show the same view. *)
Theorem filtered_selection_as_set (df : DataFrame) (s1 s2 : FilterState) :
  (∀ o, o ∈ selected_origins s1 ↔ o ∈ selected_origins s2) →
  (∀ c, c ∈ selected_cylinders s1 ↔ c ∈ selected_cylinders s2) →
  year_range s1 = year_range s2 →
  filtered df s1 = filtered df s2.
Proof.
  intros Ho Hc Hy. unfold filtered. apply list_filter_iff. intros r.
  by rewrite !mask_spec, Ho, Hc, Hy.
Qed.

Lemma filtered_selection_as_set_witness :
  filtered sample_df (mkFilterState ["Usa"; "Japan"] [8; 4] (1970, 1976))
  = filtered sample_df
      (mkFilterState ["Japan"; "Usa"; "Japan"] [4; 8] (1970, 1976)).
Proof.
  apply filtered_selection_as_set; simpl.
  - intros o. rewrite !elem_of_cons, !elem_of_nil. tauto.
  - intros c. rewrite !elem_of_cons, !elem_of_nil. tauto.
  - reflexivity.
Defined.

(** ** Aggregation (lines 60-63, 68 and 77) *)

(** The order of binary64 values, on their specification. *)
Lemma SFltb_irrefl (x : SpecFloat.spec_float) : SpecFloat.SFltb x x = false.
Proof.
  unfold SpecFloat.SFltb.
  destruct x as [[]|[]| |[] m e]; simpl; try reflexivity.
  all: rewrite Z.compare_refl.
  all: change (Pos.compare_cont Eq m m) with (Pos.compare m m).
  all: by rewrite Pos.compare_refl.
Qed.

Lemma SFltb_trans (x y z : SpecFloat.spec_float) :
  SpecFloat.SFltb x y = true → SpecFloat.SFltb y z = true →
  SpecFloat.SFltb x z = true.
Proof.
  unfold SpecFloat.SFltb.
  destruct x as [[]|[]| |[] m1 e1], y as [[]|[]| |[] m2 e2],
    z as [[]|[]| |[] m3 e3]; simpl; try done.
  all: destruct (Z.compare_spec e1 e2), (Z.compare_spec e2 e3),
         (Z.compare_spec e1 e3); try done; try lia; subst.
  all: change (Pos.compare_cont Eq ?a ?b) with (Pos.compare a b).
  all: destruct (Pos.compare_spec m1 m2), (Pos.compare_spec m2 m3),
         (Pos.compare_spec m1 m3); simpl; try done; lia.
Qed.

(** A value that is not NaN is comparable with every other one. *)
Lemma SFltb_between (x y z : SpecFloat.spec_float) :
  y ≠ SpecFloat.S754_nan →
  SpecFloat.SFltb x z = true →
  SpecFloat.SFltb x y = true ∨ SpecFloat.SFltb y z = true.
Proof.
  unfold SpecFloat.SFltb.
  destruct x as [[]|[]| |[] m1 e1], y as [[]|[]| |[] m2 e2],
    z as [[]|[]| |[] m3 e3]; simpl; try done; auto.
  all: destruct (Z.compare_spec e1 e2), (Z.compare_spec e2 e3),
         (Z.compare_spec e1 e3); try done; auto; try lia; subst.
  all: change (Pos.compare_cont Eq ?a ?b) with (Pos.compare a b).
  all: destruct (Pos.compare_spec m1 m2), (Pos.compare_spec m2 m3),
         (Pos.compare_spec m1 m3); simpl; try done; auto; lia.
Qed.

Lemma is_nan_false_spec (x : float) :
  PrimFloat.is_nan x = false → FloatOps.Prim2SF x ≠ SpecFloat.S754_nan.
Proof.
  unfold PrimFloat.is_nan. rewrite FloatAxioms.eqb_spec. intros H Hnan.
  rewrite Hnan in H. discriminate H.
Qed.

Lemma ltb_nan_r (x y : float) :
  PrimFloat.is_nan y = true → PrimFloat.ltb x y = false.
Proof.
  unfold PrimFloat.is_nan.
  rewrite FloatAxioms.eqb_spec, FloatAxioms.ltb_spec.
  unfold SpecFloat.SFeqb, SpecFloat.SFltb.
  destruct (FloatOps.Prim2SF y) as [[]|[]| |[] m e] eqn:Hy; simpl.
  5: by destruct (FloatOps.Prim2SF x).
  all: try (rewrite Z.compare_refl;
            change (Pos.compare_cont Eq m m) with (Pos.compare m m);
            rewrite Pos.compare_refl); done.
Qed.

(** The fold of [Series.max()] returns one of the values, and none of the
    values is above it. *)
Lemma foldl_fmax (x : float) (vals : list float) :
  Forall (λ y, PrimFloat.is_nan y = false) (x :: vals) →
  let m := foldl (λ a b, if PrimFloat.ltb a b then b else a) x vals in
  m ∈ x :: vals ∧ ∀ y, y ∈ x :: vals → PrimFloat.ltb m y = false.
Proof.
  revert x. induction vals as [|b vals IH]; intros x Hna; simpl.
  - split; [apply list_elem_of_here|].
    intros y ->%list_elem_of_singleton.
    rewrite FloatAxioms.ltb_spec. apply SFltb_irrefl.
  - apply Forall_cons in Hna as [Hx Hna]. pose proof Hna as Hna'.
    apply Forall_cons in Hna' as [Hb Hvals].
    destruct (PrimFloat.ltb x b) eqn:Hxb.
    + destruct (IH b Hna) as [Hin Hmax]. split.
      * by apply list_elem_of_further.
      * intros y Hy. apply elem_of_cons in Hy as [Hy|Hy]; [subst y|by apply Hmax].
        pose proof (Hmax b (list_elem_of_here _ _)) as Hmb.
        set (m := foldl _ b vals) in *.
        destruct (PrimFloat.ltb m x) eqn:Hmx; [|done].
        rewrite !FloatAxioms.ltb_spec in *.
        rewrite (SFltb_trans _ _ _ Hmx Hxb) in Hmb. done.
    + assert (Forall (λ y, PrimFloat.is_nan y = false) (x :: vals)) as Hna2
        by by constructor.
      destruct (IH x Hna2) as [Hin Hmax]. split.
      * apply elem_of_cons in Hin as [->|Hin]; [apply list_elem_of_here|].
        by do 2 apply list_elem_of_further.
      * intros y Hy. apply elem_of_cons in Hy as [Hy|Hy].
        { subst y. apply Hmax, list_elem_of_here. }
        apply elem_of_cons in Hy as [Hy|Hy].
        2: { by apply Hmax, list_elem_of_further. }
        subst y.
        pose proof (Hmax x (list_elem_of_here _ _)) as Hmx.
        set (m := foldl _ x vals) in *.
        destruct (PrimFloat.ltb m b) eqn:Hmb; [|done].
        rewrite !FloatAxioms.ltb_spec in *.
        destruct (SFltb_between _ (FloatOps.Prim2SF x) _
                    (is_nan_false_spec x Hx) Hmb); congruence.
Qed.

Lemma elem_of_notna_values (col : list float) (x : float) :
  x ∈ notna_values col ↔ x ∈ col ∧ PrimFloat.is_nan x = false.
Proof. unfold notna_values. rewrite list_elem_of_filter. tauto. Qed.

Lemma series_fmax_spec (col : list float) :
  (∃ x, x ∈ col ∧ PrimFloat.is_nan x = false) →
  series_fmax col ∈ col
  ∧ PrimFloat.is_nan (series_fmax col) = false
  ∧ ∀ y, y ∈ col → PrimFloat.ltb (series_fmax col) y = false.
Proof.
  intros (x0 & Hx0 & Hna0). unfold series_fmax.
  assert (x0 ∈ notna_values col) as Hne by by apply elem_of_notna_values.
  destruct (notna_values col) as [|x vals] eqn:Hvals.
  { by apply elem_of_nil in Hne. }
  assert (Forall (λ y, PrimFloat.is_nan y = false) (x :: vals)) as Hna.
  { apply Forall_forall. intros y Hy. rewrite <- Hvals in Hy.
    by apply elem_of_notna_values in Hy as [_ ?]. }
  destruct (foldl_fmax x vals Hna) as [Hin Hmax].
  rewrite <- Hvals in Hin. apply elem_of_notna_values in Hin as [Hin Hnan].
  split_and!; [done..|].
  intros y Hy. destruct (PrimFloat.is_nan y) eqn:Hnay.
  - by apply ltb_nan_r.
  - apply Hmax. rewrite <- Hvals. by apply elem_of_notna_values.
Qed.

(** When some car of the view has an mpg, Best MPG is the mpg of a car of
    the view, it is not NaN, and no car of the view has a larger mpg. *)
Theorem best_mpg_is_largest (view : DataFrame) :
  (∃ r, r ∈ view ∧ PrimFloat.is_nan (mpg r) = false) →
  (∃ r, r ∈ view ∧ best_mpg (summarize view) = mpg r)
  ∧ PrimFloat.is_nan (best_mpg (summarize view)) = false
  ∧ ∀ r, r ∈ view → PrimFloat.ltb (best_mpg (summarize view)) (mpg r) = false.
Proof.
  intros (r0 & Hr0 & Hna0). simpl.
  destruct (series_fmax_spec (mpg <$> view)) as (Hin & Hna & Hmax).
  { exists (mpg r0). split; [by apply list_elem_of_fmap_2|done]. }
  split_and!; [|done|].
  - apply list_elem_of_fmap in Hin as (r & Hr & Hin). by exists r.
  - intros r Hr. by apply Hmax, list_elem_of_fmap_2.
Qed.

Lemma best_mpg_is_largest_witness :
  (∃ r, r ∈ sample_df ∧ best_mpg (summarize sample_df) = mpg r)
  ∧ PrimFloat.is_nan (best_mpg (summarize sample_df)) = false
  ∧ ∀ r, r ∈ sample_df →
         PrimFloat.ltb (best_mpg (summarize sample_df)) (mpg r) = false.
Proof.
  apply (best_mpg_is_largest sample_df).
  exists (mkRow "chevrolet chevelle malibu" "Usa" 8 1970 3504 130 18).
  split; [vm_compute; apply list_elem_of_here|reflexivity].
Defined.

(** On the filtered view of a loaded frame, Best MPG is NaN exactly when no
    car is shown. *)
Theorem best_mpg_nan_iff_no_car (csv : list RawRow) (s : FilterState) :
  PrimFloat.is_nan (best_mpg (summarize (filtered (load_data csv) s))) = true
  ↔ filtered (load_data csv) s = [].
Proof.
  split.
  - intros Hnan. destruct (filtered (load_data csv) s) as [|r view] eqn:Hview;
      [done|].
    assert (r ∈ filtered (load_data csv) s) as Hr
      by (rewrite Hview; apply list_elem_of_here).
    apply elem_of_filtered in Hr as [Hr _].
    apply elem_of_load_data_notna in Hr as (_ & _ & Hr).
    destruct (series_fmax_spec (mpg <$> (r :: view))) as (_ & Hna & _).
    { exists (mpg r). split; [apply list_elem_of_here|done]. }
    unfold summarize in Hnan. cbn [best_mpg] in Hnan. congruence.
  - intros ->. reflexivity.
Qed.

(** The groups of a filtered view stay within the selection: the trend has
    no line for an origin that is not selected or a year outside the range,
    and the cylinder averages have no bar for a count that is not
    selected. *)
Theorem groups_within_selection (df : DataFrame) (s : FilterState) :
  (∀ y o, (y, o) ∈ (trend (filtered df s)).*1 →
          o ∈ selected_origins s
          ∧ (year_range s).1 ≤ y ≤ (year_range s).2)
  ∧ (∀ c, c ∈ (avg_cyl (filtered df s)).*1 → c ∈ selected_cylinders s).
Proof.
  split.
  - intros y o. unfold trend. rewrite (elem_of_groupby_mean_keys key_le).
    intros (r & Hr & [= <- <-]).
    apply elem_of_filtered in Hr as [_ Hr]. apply mask_spec in Hr. tauto.
  - intros c. unfold avg_cyl. rewrite (elem_of_groupby_mean_keys Z.le).
    intros (r & Hr & <-).
    apply elem_of_filtered in Hr as [_ Hr]. apply mask_spec in Hr. tauto.
Qed.

Lemma StronglySorted_fmap_inv {A B} (R : relation B) (f : A → B) (l : list A) :
  StronglySorted R (f <$> l) → StronglySorted (λ x y, R (f x) (f y)) l.
Proof.
  induction l as [|x l IH]; [constructor|].
  rewrite fmap_cons, !StronglySorted_cons, Forall_fmap.
  intros [Hx Hl]. split; [done|]. by apply IH.
Qed.

Lemma StronglySorted_filter {A} (R : relation A) (P : A → Prop)
    `{∀ x, Decision (P x)} (l : list A) :
  StronglySorted R l →
  StronglySorted (λ x y, R x y ∧ P x ∧ P y) (filter P l).
Proof.
  induction 1 as [|x l Hl IH Hx]; [constructor|].
  rewrite filter_cons. destruct (decide (P x)) as [HPx|]; [|done].
  constructor; [done|]. apply Forall_forall.
  intros y [HPy Hy]%list_elem_of_filter. by eapply Forall_forall in Hx.
Qed.

(** Within the trend the lines of one origin come with strictly ascending
    years, one line per year: the curve of an origin in the chart of line
    69 runs from left to right. *)
Theorem trend_years_ascending (view : DataFrame) (o : string) :
  StronglySorted Z.lt
    ((λ line, line.1.1) <$> filter (λ line, line.1.2 = o) (trend view)).
Proof.
  pose proof (groupby_mean_sorted key_le (λ r, (model_year r, origin r)) view)
    as Hsorted.
  apply StronglySorted_fmap_inv in Hsorted.
  apply (StronglySorted_filter _ (λ line, line.1.2 = o)) in Hsorted.
  eapply StronglySorted_fmap; [|exact Hsorted].
  intros [[y1 o1] m1] [[y2 o2] m2]; unfold key_le; simpl.
  intros ([[?|[-> ?]] Hne] & -> & ->); [done|]. by destruct Hne.
Qed.

Lemma length_unique `{EqDecision A} (col : list A) :
  (length (unique col) ≤ length col)%nat.
Proof.
  induction col as [|x col IH]; simpl; [done|].
  pose proof (length_filter (λ y, y ≠ x) (unique col)). lia.
Qed.

Lemma length_groupby_mean {K} `{EqDecision K} (le : relation K)
    `{!RelDecision le} (key : Row → K) (df : DataFrame) :
  length (groupby_mean le key df) = length (unique (key <$> df)).
Proof.
  unfold groupby_mean. by rewrite length_fmap, merge_sort_Permutation.
Qed.

Lemma groupby_mean_nil {K} `{EqDecision K} (le : relation K)
    `{!RelDecision le} (key : Row → K) (df : DataFrame) :
  groupby_mean le key df = [] ↔ df = [].
Proof.
  rewrite <- !length_zero_iff_nil, length_groupby_mean.
  destruct df; simpl; [done|]. split; intros [=].
Qed.

(** Neither grouping has more groups than the view has rows, and each has
    no group exactly when the view is empty. *)
Theorem groups_count (view : DataFrame) :
  (length (trend view) ≤ length view)%nat
  ∧ (length (avg_cyl view) ≤ length view)%nat
  ∧ (trend view = [] ↔ view = [])
  ∧ (avg_cyl view = [] ↔ view = []).
Proof.
  unfold trend, avg_cyl. rewrite !length_groupby_mean, !groupby_mean_nil.
  split_and!; [| |done..].
  - etrans; [apply length_unique|]. by rewrite length_fmap.
  - etrans; [apply length_unique|]. by rewrite length_fmap.
Qed.

(** ** Row labels (line 118) *)

Lemma read_labels_lookup (csv : list RawRow) (i : nat) (raw : RawRow) :
  (i, raw) ∈ read_labels csv ↔ csv !! i = Some raw.
Proof.
  unfold read_labels. rewrite elem_of_lookup_imap. split.
  - intros (j & raw' & [= -> ->] & Hj). done.
  - intros Hi. by exists i, raw.
Qed.

Lemma read_labels_snd (csv : list RawRow) : (read_labels csv).*2 = csv.
Proof.
  apply list_eq. intros i. unfold read_labels.
  rewrite list_lookup_fmap, list_lookup_imap. by destruct (csv !! i).
Qed.

Lemma read_labels_sorted (csv : list RawRow) :
  StronglySorted (λ a b : nat * RawRow, (a.1 < b.1)%nat) (read_labels csv).
Proof.
  unfold read_labels.
  assert (∀ k, StronglySorted (λ a b : nat * RawRow, (a.1 < b.1)%nat)
                 (imap (λ i raw, ((k + i)%nat, raw)) csv)) as H.
  { induction csv as [|raw csv IH]; intros k; [constructor|].
    rewrite imap_cons. constructor.
    - erewrite imap_ext; [apply (IH (S k))|]. intros i x _. simpl. f_equal. lia.
    - apply Forall_forall. intros [j x] (i & y & [= -> ->] & _)%elem_of_lookup_imap.
      simpl. lia. }
  exact (H 0%nat).
Qed.

Lemma dropna_labelled_snd (csv : Labelled RawRow) :
  (dropna_labelled csv).*2 = dropna csv.*2.
Proof.
  unfold dropna_labelled, dropna.
  induction csv as [|[i raw] csv IH]; [done|].
  cbn. destruct (complete raw); cbn; by rewrite <- IH.
Qed.

Lemma elem_of_dropna_labelled (csv : Labelled RawRow) (i : nat) (r : Row) :
  (i, r) ∈ dropna_labelled csv ↔ ∃ raw, (i, raw) ∈ csv ∧ complete raw = Some r.
Proof.
  unfold dropna_labelled. rewrite list_elem_of_omap. split.
  - intros ([j raw] & Hin & H). simpl in H.
    destruct (complete raw) as [r'|] eqn:Hc; simplify_eq/=. by exists raw.
  - intros (raw & Hin & Hc). exists (i, raw). split; [done|]. simpl.
    by rewrite Hc.
Qed.

Lemma dropna_labelled_sorted (csv : Labelled RawRow) :
  StronglySorted (λ a b, (a.1 < b.1)%nat) csv →
  StronglySorted (λ a b, (a.1 < b.1)%nat) (dropna_labelled csv).
Proof.
  induction 1 as [|[i raw] csv Hl IH Hx]; [constructor|].
  assert (dropna_labelled ((i, raw) :: csv)
          = match complete raw with
            | Some r => (i, r) :: dropna_labelled csv
            | None => dropna_labelled csv
            end) as ->.
  { unfold dropna_labelled. cbn. by destruct (complete raw). }
  destruct (complete raw) as [r|]; [|done].
  constructor; [done|]. apply Forall_forall.
  intros [j r'] (raw' & Hin & _)%elem_of_dropna_labelled.
  rewrite Forall_forall in Hx. exact (Hx _ Hin).
Qed.

Lemma filtered_labelled_snd (df : Labelled Row) (s : FilterState) :
  (filtered_labelled df s).*2 = filtered df.*2 s.
Proof.
  unfold filtered_labelled, filtered.
  induction df as [|[i r] df IH]; [done|].
  cbn. destruct (decide (mask s r = true)); cbn; [f_equal|]; exact IH.
Qed.

Lemma load_data_labelled_snd (csv : list RawRow) :
  (load_data_labelled csv).*2 = load_data csv.
Proof.
  unfold load_data_labelled, load_data, full_model_year, capitalize_origin.
  rewrite <- !list_fmap_compose.
  rewrite <- (read_labels_snd csv) at 2. rewrite <- dropna_labelled_snd.
  rewrite <- !list_fmap_compose. reflexivity.
Qed.

Lemma elem_of_load_data_labelled (csv : list RawRow) (i : nat) (r : Row) :
  (i, r) ∈ load_data_labelled csv ↔
    ∃ raw, csv !! i = Some raw ∧ load_data [raw] = [r].
Proof.
  unfold load_data_labelled. rewrite <- list_fmap_compose, list_elem_of_fmap.
  split.
  - intros ([j r0] & [= -> ->] & (raw & Hin & Hc)%elem_of_dropna_labelled).
    exists raw. split; [by apply read_labels_lookup|].
    unfold load_data, dropna. simpl. rewrite Hc. reflexivity.
  - intros (raw & Hi & Hload). unfold load_data, dropna in Hload.
    simpl in Hload. destruct (complete raw) as [r0|] eqn:Hc; [|done].
    injection Hload as <-. exists (i, r0). split; [done|].
    apply elem_of_dropna_labelled. exists raw.
    split; [by apply read_labels_lookup|done].
Qed.

Lemma load_data_labelled_sorted (csv : list RawRow) :
  StronglySorted (λ a b, (a.1 < b.1)%nat) (load_data_labelled csv).
Proof.
  unfold load_data_labelled. rewrite <- list_fmap_compose.
  eapply StronglySorted_fmap;
    [|apply dropna_labelled_sorted, read_labels_sorted].
  by intros [i1 r1] [i2 r2].
Qed.

(** The filtered frame keeps the row numbers of the file: its labels are
    strictly ascending, each one is the position in the file of the row it
    labels, and without the labels it is the filtered view. *)
Theorem filtered_labels_are_file_positions (csv : list RawRow)
    (s : FilterState) :
  StronglySorted lt (filtered_labelled (load_data_labelled csv) s).*1
  ∧ (∀ i r, (i, r) ∈ filtered_labelled (load_data_labelled csv) s →
            ∃ raw, csv !! i = Some raw ∧ load_data [raw] = [r])
  ∧ (filtered_labelled (load_data_labelled csv) s).*2
    = filtered (load_data csv) s.
Proof.
  split_and!.
  - pose proof (load_data_labelled_sorted csv) as Hsorted.
    apply (StronglySorted_filter _ (λ ir, mask s ir.2 = true)) in Hsorted.
    eapply StronglySorted_fmap; [|exact Hsorted].
    intros [i1 r1] [i2 r2]; simpl. tauto.
  - intros i r [_ Hin]%list_elem_of_filter.
    by apply elem_of_load_data_labelled.
  - by rewrite filtered_labelled_snd, load_data_labelled_snd.
Qed.

Lemma reset_index_fst {A} (df : Labelled A) :
  (reset_index df).*1 = seq 0 (length df).
Proof.
  unfold Labelled in df. apply list_eq. intros i. unfold reset_index.
  rewrite list_lookup_fmap, list_lookup_imap.
  destruct (df !! i) as [ir|] eqn:Hi; simpl; symmetry.
  - apply lookup_seq_lt. by eapply lookup_lt_Some.
  - apply lookup_seq_ge. by apply lookup_ge_None.
Qed.

Lemma reset_index_snd {A} (df : Labelled A) : (reset_index df).*2 = df.*2.
Proof.
  unfold Labelled in df. apply list_eq. intros i. unfold reset_index.
  rewrite !list_lookup_fmap, list_lookup_imap. by destruct (df !! i).
Qed.

(** The table of line 118 numbers the rows shown 0, 1, 2, ... without a
    gap, whatever rows the loader and the filter dropped, and its rows are
    the filtered view in order. *)
Theorem table_rows_renumbered (csv : list RawRow) (s : FilterState) :
  let table := reset_index (filtered_labelled (load_data_labelled csv) s) in
  table.*1 = seq 0 (length (filtered (load_data csv) s))
  ∧ table.*2 = filtered (load_data csv) s.
Proof.
  simpl. rewrite reset_index_fst, reset_index_snd.
  rewrite <- (length_fmap snd), filtered_labelled_snd, load_data_labelled_snd.
  done.
Qed.

Example table_rows_renumbered_sample :
  let shown := filtered_labelled (load_data_labelled sample_csv)
                 (mkFilterState ["Japan"; "Usa"] [4; 8] (1976, 1976)) in
  (λ ir, (ir.1, name ir.2)) <$> shown = [(4, "toyota corolla"); (5, "ford ltd")]%nat
  ∧ (λ ir, (ir.1, name ir.2)) <$> reset_index shown
    = [(0, "toyota corolla"); (1, "ford ltd")]%nat.
Proof. split; vm_compute; reflexivity. Qed.
